(** * The TypeScript declaration generator of the Elasticsearch specification

    A shallow embedding of [typescript-generator/index.ts]: the script that
    walks the catalogue of type definitions produced by the specification
    loader, renders every definition as a TypeScript declaration and writes
    the result, wrapped in [declare namespace T], to [types.ts].

    Strings are [Stdlib.Strings.String.string], that is sequences of bytes.
    The JavaScript string operations the generator uses ([includes], [endsWith],
    [slice], the ASCII character classes of its one regular expression) only
    ever look for ASCII text, and an ASCII byte never occurs inside the UTF-8
    encoding of a non-ASCII character, so they agree on bytes and on UTF-16
    code units. *)

From Stdlib Require Import Strings.String Strings.Ascii Lists.List Bool.Bool.
From Stdlib Require Import Arith.Arith ZArith.ZArith micromega.Lia.
Import ListNotations.

Local Open Scope list_scope.
Local Open Scope string_scope.

(** ** JavaScript string and array primitives *)

Module Js.

(** [Array.prototype.join]: the accumulator [R] starts empty; before every
    element but the first the separator is appended, then the element. *)
Definition join_step (sep : string) (st : nat * string) (x : string)
  : nat * string :=
  let (k, R) := st in
  (S k, (if Nat.eqb k 0 then R else R ++ sep) ++ x).

Definition join (sep : string) (l : list string) : string :=
  snd (fold_left (join_step sep) l (0, "")).

(** [String.prototype.slice (start, end)], with negative positions counted
    from the end of the string and both positions clamped to the string. *)
Definition clamp (len i : Z) : Z :=
  if (i <? 0)%Z then Z.max (len + i) 0 else Z.min i len.

Definition slice (s : string) (start stop : Z) : string :=
  let len := Z.of_nat (String.length s) in
  let from := clamp len start in
  let to := clamp len stop in
  let span := Z.max (to - from) 0 in
  String.substring (Z.to_nat from) (Z.to_nat span) s.

(** [String.prototype.includes]. *)
Fixpoint includes (s sub : string) : bool :=
  String.prefix sub s ||
  match s with
  | EmptyString => false
  | String _ s' => includes s' sub
  end.

(** [String.prototype.endsWith]. *)
Definition endsWith (s suffix : string) : bool :=
  let n := String.length s in
  let m := String.length suffix in
  (m <=? n)%nat && String.eqb (String.substring (n - m) m s) suffix.

(** [Array.prototype.includes] on an array of strings. *)
Definition array_includes (l : list string) (x : string) : bool :=
  existsb (String.eqb x) l.

(** The regular-expression classes [\d] and [\w] ([\W] is its complement). *)
Definition is_digit (c : ascii) : bool :=
  let n := nat_of_ascii c in ((48 <=? n) && (n <=? 57))%nat.

Definition is_word (c : ascii) : bool :=
  let n := nat_of_ascii c in
  is_digit c || ((65 <=? n) && (n <=? 90))%nat
  || ((97 <=? n) && (n <=? 122))%nat || (n =? 95)%nat.

(** Reading a property of an object used as a record of arrays: [obj.key] is
    the array stored under [key], or [undefined]. *)
Fixpoint get {V : Type} (obj : list (string * V)) (key : string) : option V :=
  match obj with
  | [] => None
  | (k, v) :: rest => if String.eqb k key then Some v else get rest key
  end.

(** Truthiness of such a property: an array is truthy, [undefined] is not. *)
Definition truthy_property {V : Type} (v : option V) : bool :=
  match v with Some _ => true | None => false end.

(** Truthiness of an environment variable: unset and empty are falsy. *)
Definition truthy_env (v : option string) : bool :=
  match v with
  | Some EmptyString | None => false
  | Some (String _ _) => true
  end.

End Js.

(** The line feed and the double quote, which have no escape in a string
    literal here. *)
Definition nl : string := String (ascii_of_nat 10) EmptyString.
Definition dq : string := String (ascii_of_nat 34) EmptyString.

(** ** The domain model read by the generator *)

(** Modelled from the spec: the classes of [elasticsearch-client-specification/src/domain]
    are imported by the generator but not part of it.  The constructors are
    the six cases [unwrapType] tells apart by [instanceof]; the fields are the
    ones it reads.  An [ImplementsReference] always carries its array of
    closed generics; on a plain [Type] the array may be absent, which is why
    the generator guards it with [Array.isArray]. *)
#[warnings="-register-all"]
Inductive InstanceOf : Type :=
| ArrayOf (of_ : InstanceOf)
| Dictionary (key value : InstanceOf)
| SingleKeyDictionary (value : InstanceOf)
| UnionOf (items : list InstanceOf)
| ImplementsReference (type_name : string) (closedGenerics : list InstanceOf)
| TypeRef (name : string) (closedGenerics : option (list InstanceOf)).

(** The induction principle the nested occurrences under [list] need. *)
Section InstanceOf_induction.
Variable P : InstanceOf -> Prop.
Hypothesis H_array : forall o, P o -> P (ArrayOf o).
Hypothesis H_dict : forall k v, P k -> P v -> P (Dictionary k v).
Hypothesis H_single : forall v, P v -> P (SingleKeyDictionary v).
Hypothesis H_union : forall items, Forall P items -> P (UnionOf items).
Hypothesis H_impl : forall n cg, Forall P cg -> P (ImplementsReference n cg).
Hypothesis H_ref_none : forall n, P (TypeRef n None).
Hypothesis H_ref_some : forall n cg, Forall P cg -> P (TypeRef n (Some cg)).

Fixpoint InstanceOf_nested_ind (t : InstanceOf) : P t :=
  let all := fix all (l : list InstanceOf) : Forall P l :=
    match l with
    | [] => Forall_nil P
    | x :: r => Forall_cons x (InstanceOf_nested_ind x) (all r)
    end in
  match t with
  | ArrayOf o => H_array o (InstanceOf_nested_ind o)
  | Dictionary k v =>
      H_dict k v (InstanceOf_nested_ind k) (InstanceOf_nested_ind v)
  | SingleKeyDictionary v => H_single v (InstanceOf_nested_ind v)
  | UnionOf items => H_union items (all items)
  | ImplementsReference n cg => H_impl n cg (all cg)
  | TypeRef n None => H_ref_none n
  | TypeRef n (Some cg) => H_ref_some n cg (all cg)
  end.
End InstanceOf_induction.

(** ** The type-expression resolver *)

Fixpoint unwrapType (type : InstanceOf) : string :=
  match type with
  | ArrayOf of_ => unwrapType of_ ++ "[]"
  | Dictionary key value =>
      "Record<" ++ unwrapType key ++ ", " ++ unwrapType value ++ ">"
  | SingleKeyDictionary value =>
      "Record<string, " ++ unwrapType value ++ ">"
  | UnionOf items => Js.join " | " (map unwrapType items)
  | ImplementsReference type_name closedGenerics =>
      if String.eqb type_name "DictionaryResponseBase" then
        "Record<" ++ Js.join ", " (map unwrapType closedGenerics) ++ ">"
      else if (1 <? List.length closedGenerics)%nat then
        type_name ++ "<" ++ Js.join ", " (map unwrapType closedGenerics) ++ ">"
      else type_name
  | TypeRef name closedGenerics =>
      match closedGenerics with
      | Some generics =>
          if (0 <? List.length generics)%nat then
            name ++ "<" ++ Js.join ", " (map unwrapType generics) ++ ">"
          else name
      | None => name
      end
  end.


(** Modelled from the spec: the type definitions of the same absent [domain]
    module, with the fields the emitters read.  [openGenerics] and [inherits]
    are guarded by [Array.isArray] in the generator and so may be absent.
    [inheritsFromUnresolved] is the record, keyed by ancestor name, that the
    loader fills next to [inherits]; the generator only tests whether its
    [ResponseBase] property is set. *)
Record InterfaceProperty : Type := mkProperty {
  property_name : string;
  property_type : option InstanceOf;
  property_nullable : bool
}.

Record EnumMember : Type := mkMember {
  member_name : string;
  stringRepresentation : string
}.

Record Enum : Type := mkEnum {
  enum_name : string;
  members : list EnumMember
}.

Record Interface : Type := mkInterface {
  interface_name : string;
  openGenerics : option (list string);
  inherits : option (list InstanceOf);
  inheritsFromUnresolved : list (string * list string);
  properties : list InterfaceProperty
}.

Inductive RequestBody : Type :=
| BodyProperties (props : list InterfaceProperty)
| BodyType (type : InstanceOf).

(** [RequestInterface extends Interface]: the coercion is the upcast. *)
Record RequestInterface : Type := mkRequest {
  request_base :> Interface;
  path : option (list InterfaceProperty);
  queryParameters : option (list InterfaceProperty);
  body : option RequestBody
}.

(** One entry of [specification.types].  [OtherDeclaration] stands for an
    entry that is an instance of none of the classes the walker tests. *)
Inductive TypeDeclaration : Type :=
| StringAlias (name : string)
| NumberAlias (name : string)
| UnionAlias (name : string) (wraps : InstanceOf)
| RequestInterfaceDecl (type : RequestInterface)
| InterfaceDecl (type : Interface)
| EnumDecl (type : Enum)
| OtherDeclaration (name : string).

Definition declaration_name (type : TypeDeclaration) : string :=
  match type with
  | StringAlias name | NumberAlias name | UnionAlias name _
  | OtherDeclaration name => name
  | RequestInterfaceDecl r => interface_name r
  | InterfaceDecl i => interface_name i
  | EnumDecl e => enum_name e
  end.

(** ** The generator *)

Definition stableApis : list string :=
  [ "IndexRequest"; "IndexResponse"; "CreateRequest"; "CreateResponse";
    "DeleteRequest"; "DeleteResponse"; "UpdateRequest"; "UpdateResponse";
    "GetRequest"; "GetResponse" ].

Definition skipInterface : list string :=
  [ "ResponseBase"; "DictionaryResponseBase" ].

Definition buildStringAlias (name : string) : string :=
  "  export type " ++ name ++ " = string".

Definition buildNumberAlias (name : string) : string :=
  "  export type " ++ name ++ " = number".

Definition buildUnionAlias (name : string) (wraps : InstanceOf) : string :=
  "  export type " ++ name ++ " = " ++ unwrapType wraps.

Definition buildGeneric (type : Interface) : string :=
  match openGenerics type with
  | Some generics =>
      if (0 <? List.length generics)%nat
      then "<" ++ Js.join ", " generics ++ ">"
      else ""
  | None => ""
  end.

Definition buildInherits (type : Interface) : string :=
  match inherits type with
  | Some ancestors =>
      if (0 <? List.length ancestors)%nat then
        if (List.length ancestors =? 1)%nat
           && Js.truthy_property
                (Js.get (inheritsFromUnresolved type) "ResponseBase")
        then ""
        else
          let code :=
            fold_left (fun code inherit => code ++ (unwrapType inherit ++ ", "))
                      ancestors " extends " in
          Js.slice code 0 (-2)
      else ""
  | None => ""
  end.

(** [name.match(/^(\d|\W)/)]: the first character exists and is a digit or is
    not a word character. *)
Definition match_digit_or_nonword (name : string) : bool :=
  match name with
  | EmptyString => false
  | String c _ => Js.is_digit c || negb (Js.is_word c)
  end.

Definition cleanPropertyName (name : string) : string :=
  if Js.includes name "." || Js.includes name "-"
     || match_digit_or_nonword name
  then dq ++ name ++ dq
  else name.

Definition generateComment (type : Interface) : string :=
  let name := interface_name type in
  if Js.array_includes stableApis name then
    let comment := "  /**" ++ nl in
    let comment := comment ++ ("   * @description Stability: STABLE" ++ nl) in
    let comment := comment ++ ("   */" ++ nl) in
    comment
  else if Js.endsWith name "Request" || Js.endsWith name "Response" then
    let comment := "  /**" ++ nl in
    let comment := comment ++ ("   * @description Stability: UNSTABLE" ++ nl) in
    let comment := comment ++ ("   */" ++ nl) in
    comment
  else "".

(** The body of the four property loops of [buildInterface] and
    [buildRequestInterface], which differ only in the indentation: a property
    without a type is skipped ([continue]), any other appends one line. *)
Definition appendProperty (indent : string) (code : string)
    (property : InterfaceProperty) : string :=
  match property_type property with
  | None => code
  | Some type =>
      code ++ (indent ++ cleanPropertyName (property_name property)
               ++ (if property_nullable property then "?" else "")
               ++ ": " ++ unwrapType type ++ nl)
  end.

Definition buildInterface (type : Interface) : string :=
  let code := generateComment type in
  let code := code ++ ("  export interface " ++ interface_name type
                       ++ buildGeneric type ++ buildInherits type
                       ++ " {" ++ nl) in
  let code := fold_left (appendProperty "    ") (properties type) code in
  let code := code ++ "  }" in
  code.

Definition buildRequestInterface (type : RequestInterface) : string :=
  let code := generateComment type in
  let code := code ++ ("  export interface " ++ interface_name type
                       ++ buildGeneric type ++ buildInherits type
                       ++ " {" ++ nl) in
  let code :=
    match path type with
    | Some props => fold_left (appendProperty "    ") props code
    | None => code
    end in
  let code :=
    match queryParameters type with
    | Some props => fold_left (appendProperty "    ") props code
    | None => code
    end in
  let code :=
    match body type with
    | Some (BodyProperties props) =>
        let code := code ++ ("    body?: {" ++ nl) in
        let code := fold_left (appendProperty "      ") props code in
        code ++ ("    }" ++ nl)
    | Some (BodyType b) => code ++ ("    body?: " ++ unwrapType b ++ nl)
    | None => code
    end in
  let code := code ++ "  }" in
  code.

(** The process environment: only [ENUM_AS_UNION] is read. *)
Record Env : Type := mkEnv { ENUM_AS_UNION : option string }.

Definition buildEnum (env : Env) (type : Enum) : string :=
  if Js.truthy_env (ENUM_AS_UNION env) then
    let types :=
      map (fun member =>
             if String.eqb (stringRepresentation member) "true"
                || String.eqb (stringRepresentation member) "false"
             then stringRepresentation member
             else dq ++ stringRepresentation member ++ dq)
          (members type) in
    "  export type " ++ enum_name type ++ " = " ++ Js.join " | " types
  else
    let code := "  export enum " ++ enum_name type ++ " {" ++ nl in
    let code :=
      fold_left (fun code member =>
                   code ++ ("    " ++ cleanPropertyName (member_name member)
                            ++ " = " ++ dq ++ stringRepresentation member
                            ++ dq ++ "," ++ nl))
                (members type) code in
    let code := code ++ "  }" in
    code.

(** ** The catalogue walker and the output assembler *)

(** The body of the loop over [specification.types]. *)
Definition walk_step (env : Env) (typeDefinitions : string)
    (type : TypeDeclaration) : string :=
  if Js.array_includes skipInterface (declaration_name type) then
    typeDefinitions
  else
    match type with
    | StringAlias name =>
        typeDefinitions ++ (buildStringAlias name ++ (nl ++ nl))
    | NumberAlias name =>
        typeDefinitions ++ (buildNumberAlias name ++ (nl ++ nl))
    | UnionAlias name wraps =>
        typeDefinitions ++ (buildUnionAlias name wraps ++ (nl ++ nl))
    | RequestInterfaceDecl r =>
        typeDefinitions ++ (buildRequestInterface r ++ (nl ++ nl))
    | InterfaceDecl i =>
        typeDefinitions ++ (buildInterface i ++ (nl ++ nl))
    | EnumDecl e =>
        typeDefinitions ++ (buildEnum env e ++ (nl ++ nl))
    | OtherDeclaration _ => typeDefinitions
    end.

(** The text handed to [fs.writeFileSync]. *)
Definition typeDefinitions (env : Env) (types : list TypeDeclaration)
  : string :=
  let typeDefinitions := "declare namespace T {" ++ nl in
  let typeDefinitions := fold_left (walk_step env) types typeDefinitions in
  let typeDefinitions := Js.slice typeDefinitions 0 (-2) in
  typeDefinitions ++ (nl ++ "}" ++ nl ++ nl ++ "export default T").

(** The file system as the script sees it: the log of the writes done so
    far.  A file is named by the segments given to [path.join]. *)
Record FileSystem : Type := mkFs {
  writes : list (list string * string)
}.

Definition writeFileSync (file : list string) (data : string)
    (fs : FileSystem) : FileSystem :=
  mkFs (writes fs ++ [(file, data)])%list.

(** The script: [types] is what [Specification.load()] returned. *)
Definition main (dirname : string) (env : Env) (types : list TypeDeclaration)
    (fs : FileSystem) : FileSystem :=
  writeFileSync [dirname; ".."; "output"; "typescript"; "types.ts"]
                (typeDefinitions env types) fs.

(** ** What a run emits, entry by entry *)

(** The declaration the walker appends for one entry, if any: the reading
    of [walk_step] used to state the properties of a run. *)
Definition emitted (env : Env) (type : TypeDeclaration) : option string :=
  if Js.array_includes skipInterface (declaration_name type) then None
  else
    match type with
    | StringAlias name => Some (buildStringAlias name)
    | NumberAlias name => Some (buildNumberAlias name)
    | UnionAlias name wraps => Some (buildUnionAlias name wraps)
    | RequestInterfaceDecl r => Some (buildRequestInterface r)
    | InterfaceDecl i => Some (buildInterface i)
    | EnumDecl e => Some (buildEnum env e)
    | OtherDeclaration _ => None
    end.

(** The declarations of a whole catalogue, in catalogue order. *)
Fixpoint declarations (env : Env) (types : list TypeDeclaration)
  : list string :=
  match types with
  | [] => []
  | type :: rest =>
      match emitted env type with
      | Some d => d :: declarations env rest
      | None => declarations env rest
      end
  end.

Definition isEnum (type : TypeDeclaration) : bool :=
  match type with EnumDecl _ => true | _ => false end.

(** The properties with a defined type, in order. *)
Definition definedProperties (props : list InterfaceProperty)
  : list (string * bool * InstanceOf) :=
  flat_map (fun p => match property_type p with
                     | Some t => [(property_name p, property_nullable p, t)]
                     | None => []
                     end) props.

(** One member line, as the emitters format it. *)
Definition memberLine (indent : string) (m : string * bool * InstanceOf)
  : string :=
  let '(name, nullable, type) := m in
  indent ++ cleanPropertyName name ++ (if nullable then "?" else "")
  ++ ": " ++ unwrapType type ++ nl.

(** Plain concatenation of a list of strings. *)
Definition flat (l : list string) : string := fold_right String.append "" l.

(** The STABLE and UNSTABLE annotation comments. *)
Definition stabilityComment (level : string) : string :=
  "  /**" ++ nl ++ "   * @description Stability: " ++ level ++ nl
  ++ "   */" ++ nl.

(** ** The resolver with its call depth made explicit *)

(** [Array.prototype.map] with a callback that may fail to return. *)
Fixpoint map_option {A B : Type} (f : A -> option B) (l : list A)
  : option (list B) :=
  match l with
  | [] => Some []
  | x :: rest =>
      match f x, map_option f rest with
      | Some y, Some ys => Some (y :: ys)
      | _, _ => None
      end
  end.

(** [unwrapType] again, where every call spends one unit of [fuel] and a
    call without fuel does not return ([None]): the same branches, the same
    recursive calls. *)
Fixpoint unwrapType_fuel (fuel : nat) (type : InstanceOf) : option string :=
  match fuel with
  | 0 => None
  | S fuel =>
      let generics (l : list InstanceOf) (k : string -> string) :=
        match map_option (unwrapType_fuel fuel) l with
        | Some rendered => Some (k (Js.join ", " rendered))
        | None => None
        end in
      match type with
      | ArrayOf of_ =>
          match unwrapType_fuel fuel of_ with
          | Some s => Some (s ++ "[]")
          | None => None
          end
      | Dictionary key value =>
          match unwrapType_fuel fuel key, unwrapType_fuel fuel value with
          | Some k, Some v => Some ("Record<" ++ k ++ ", " ++ v ++ ">")
          | _, _ => None
          end
      | SingleKeyDictionary value =>
          match unwrapType_fuel fuel value with
          | Some v => Some ("Record<string, " ++ v ++ ">")
          | None => None
          end
      | UnionOf items =>
          match map_option (unwrapType_fuel fuel) items with
          | Some rendered => Some (Js.join " | " rendered)
          | None => None
          end
      | ImplementsReference type_name closedGenerics =>
          if String.eqb type_name "DictionaryResponseBase" then
            generics closedGenerics (fun g => "Record<" ++ g ++ ">")
          else if (1 <? List.length closedGenerics)%nat then
            generics closedGenerics (fun g => type_name ++ "<" ++ g ++ ">")
          else Some type_name
      | TypeRef name closedGenerics =>
          match closedGenerics with
          | Some l =>
              if (0 <? List.length l)%nat then
                generics l (fun g => name ++ "<" ++ g ++ ">")
              else Some name
          | None => Some name
          end
      end
  end.

(** The sub-expressions one call of [unwrapType] passes to itself. *)
Definition recursiveCalls (type : InstanceOf) : list InstanceOf :=
  match type with
  | ArrayOf of_ => [of_]
  | Dictionary key value => [key; value]
  | SingleKeyDictionary value => [value]
  | UnionOf items => items
  | ImplementsReference type_name closedGenerics =>
      if String.eqb type_name "DictionaryResponseBase" then closedGenerics
      else if (1 <? List.length closedGenerics)%nat then closedGenerics
      else []
  | TypeRef _ (Some l) => l
  | TypeRef _ None => []
  end.

(** Number of constructors, and nesting depth, of a type expression. *)
Fixpoint size (type : InstanceOf) : nat :=
  match type with
  | ArrayOf of_ => S (size of_)
  | Dictionary key value => S (size key + size value)
  | SingleKeyDictionary value => S (size value)
  | UnionOf items => S (list_sum (map size items))
  | ImplementsReference _ closedGenerics =>
      S (list_sum (map size closedGenerics))
  | TypeRef _ (Some l) => S (list_sum (map size l))
  | TypeRef _ None => 1
  end.

Fixpoint height (type : InstanceOf) : nat :=
  match type with
  | ArrayOf of_ => S (height of_)
  | Dictionary key value => S (Nat.max (height key) (height value))
  | SingleKeyDictionary value => S (height value)
  | UnionOf items => S (list_max (map height items))
  | ImplementsReference _ closedGenerics =>
      S (list_max (map height closedGenerics))
  | TypeRef _ (Some l) => S (list_max (map height l))
  | TypeRef _ None => 1
  end.

(** ** The claims of the specification, where they are compared with the code *)

(** The name an ancestor refers to, and whether it is one of the base types
    the walker never emits. *)
Definition ancestorName (ancestor : InstanceOf) : option string :=
  match ancestor with
  | ImplementsReference type_name _ => Some type_name
  | TypeRef name _ => Some name
  | _ => None
  end.

Definition isExcludedBase (ancestor : InstanceOf) : bool :=
  match ancestorName ancestor with
  | Some name => Js.array_includes skipInterface name
  | None => false
  end.

(** The inheritance clause listing every ancestor in order. *)
Definition extendsClause (ancestors : list InstanceOf) : string :=
  " extends " ++ String.concat ", " (map unwrapType ancestors).

(** The inheritance rule as the specification words it: decided by the
    single ancestor being an excluded base name. *)
Definition inheritance_rule_as_specified : Prop :=
  forall (type : Interface) (ancestors : list InstanceOf),
    inherits type = Some ancestors -> ancestors <> [] ->
    ((exists a, ancestors = [a] /\ isExcludedBase a = true) ->
       buildInherits type = "")
    /\ ((2 <= List.length ancestors
         \/ exists a, ancestors = [a] /\ isExcludedBase a = false) ->
        buildInherits type = extendsClause ancestors).

(** [s] ends in [suffix]. *)
Definition endsIn (s suffix : string) : Prop := exists p, s = p ++ suffix.

(** The annotation the specification attaches to a name. *)
Definition expectedAnnotation (name : string) : string :=
  if in_dec string_dec name stableApis then stabilityComment "STABLE"
  else if Js.endsWith name "Request" || Js.endsWith name "Response"
       then stabilityComment "UNSTABLE"
       else "".

(** The annotation rule as the specification words it: every emitted
    declaration, of any variant, starts with the annotation of its name and
    goes on with its [export] header. *)
Definition annotation_rule_as_specified : Prop :=
  forall (env : Env) (type : TypeDeclaration) (text : string),
    emitted env type = Some text ->
    exists rest,
      text = expectedAnnotation (declaration_name type) ++ "  export " ++ rest.

Definition isInterfaceLike (type : TypeDeclaration) : bool :=
  match type with
  | InterfaceDecl _ | RequestInterfaceDecl _ => true
  | _ => false
  end.

(** The artifact the specification describes: one namespace around the
    declarations, consecutive declarations one blank line apart. *)
Definition assembled (decls : list string) : string :=
  "declare namespace T {" ++ nl ++ String.concat (nl ++ nl) decls
  ++ nl ++ "}" ++ nl ++ nl ++ "export default T".

(** The literal of one enum member in literal-union mode. *)
Definition enumLiteral (member : EnumMember) : string :=
  let repr := stringRepresentation member in
  if string_dec repr "true" then repr
  else if string_dec repr "false" then repr
  else dq ++ repr ++ dq.

Definition hasType (property : InterfaceProperty) : bool :=
  match property_type property with Some _ => true | None => false end.

(** The member block of a list of properties at one indentation. *)
Definition memberLines (indent : string) (props : list InterfaceProperty)
  : list string :=
  map (memberLine indent) (definedProperties props).

Definition orEmpty {A : Type} (l : option (list A)) : list A :=
  match l with Some l => l | None => [] end.

(** The member generated for the body of a request: a nested object of the
    body properties, or a single member of the body type. *)
Definition bodyMember (body : option RequestBody) : string :=
  match body with
  | Some (BodyProperties props) =>
      "    body?: {" ++ nl ++ flat (memberLines "      " props)
      ++ "    }" ++ nl
  | Some (BodyType b) => "    body?: " ++ unwrapType b ++ nl
  | None => ""
  end.

(** ** Further vocabulary for the properties of the emitters *)

(** The characters of a string. *)
Definition chars (s : string) : list ascii := list_ascii_of_string s.

(** A name the sanitizer leaves bare: no period, no hyphen, and a first
    character, if any, that is a word character but not a digit. *)
Definition bareName (name : string) : Prop :=
  ~ In "."%char (chars name)
  /\ ~ In "-"%char (chars name)
  /\ match name with
     | EmptyString => True
     | String c _ => Js.is_digit c = false /\ Js.is_word c = true
     end.

(** Whether a type expression renders as the empty string: only a reference
    with an empty name and no rendered generics does, and a union does when
    it has no items or a single one that does. *)
Fixpoint rendersEmpty (type : InstanceOf) : bool :=
  match type with
  | ArrayOf _ | Dictionary _ _ | SingleKeyDictionary _ => false
  | UnionOf items =>
      match items with
      | [] => true
      | [item] => rendersEmpty item
      | _ :: _ :: _ => false
      end
  | ImplementsReference type_name closedGenerics =>
      if String.eqb type_name "DictionaryResponseBase" then false
      else if (1 <? List.length closedGenerics)%nat then false
      else String.eqb type_name ""
  | TypeRef name (Some (_ :: _)) => false
  | TypeRef name _ => String.eqb name ""
  end.

(** One member line of an enum block. *)
Definition enumLine (member : EnumMember) : string :=
  "    " ++ cleanPropertyName (member_name member) ++ " = " ++ dq
  ++ stringRepresentation member ++ dq ++ "," ++ nl.

(** An entry the walker passes over: its name is in [skipInterface], or it
    is of none of the classes the walker tests. *)
Definition isSkipped (type : TypeDeclaration) : bool :=
  Js.array_includes skipInterface (declaration_name type)
  || match type with OtherDeclaration _ => true | _ => false end.

(** A request interface with another body. *)
Definition withBody (type : RequestInterface) (b : option RequestBody)
  : RequestInterface :=
  mkRequest (request_base type) (path type) (queryParameters type) b.

(** ** Facts about the string primitives *)

Section StringFacts.

Lemma append_nil_r (s : string) : s ++ "" = s.
Proof. induction s as [|c s IH]; simpl; [reflexivity | now rewrite IH]. Qed.

Lemma append_assoc (a b c : string) : (a ++ b) ++ c = a ++ (b ++ c).
Proof. induction a as [|x a IH]; simpl; [reflexivity | now rewrite IH]. Qed.

Lemma length_append (a b : string) :
  String.length (a ++ b) = String.length a + String.length b.
Proof. induction a as [|x a IH]; simpl; [reflexivity | now rewrite IH]. Qed.

Lemma substring_prefix (s t : string) :
  String.substring 0 (String.length s) (s ++ t) = s.
Proof.
  induction s as [|c s IH]; simpl.
  - destruct t; reflexivity.
  - now rewrite IH.
Qed.

Lemma substring_suffix (s t : string) :
  String.substring (String.length s) (String.length t) (s ++ t) = t.
Proof.
  induction s as [|c s IH]; simpl; [|exact IH].
  induction t as [|c t IHt]; simpl; [reflexivity | now rewrite IHt].
Qed.

Lemma substring_split (s : string) (k : nat) :
  k <= String.length s ->
  s = String.substring 0 k s ++ String.substring k (String.length s - k) s.
Proof.
  revert k; induction s as [|c s IH]; intros k Hk; simpl in Hk.
  - assert (k = 0) by lia; subst; reflexivity.
  - destruct k as [|k].
    + simpl. f_equal.
      clear IH Hk. induction s as [|d s IHs]; simpl;
        [reflexivity | now rewrite <- IHs].
    + simpl. f_equal. apply IH. lia.
Qed.

(** [slice(0, -2)] removes the last two characters. *)
Lemma slice_drop_last2 (s t : string) :
  String.length t = 2 -> Js.slice (s ++ t) 0 (-2) = s.
Proof.
  intros Ht. unfold Js.slice, Js.clamp.
  rewrite length_append, Ht.
  change (0 <? 0)%Z with false. change (-2 <? 0)%Z with true. cbv iota.
  set (n := String.length s).
  replace (Z.to_nat (Z.min 0 (Z.of_nat (n + 2)))) with 0 by lia.
  replace (Z.to_nat _) with n by lia.
  apply substring_prefix.
Qed.

Lemma join_step_fold (sep : string) (l : list string) (k : nat) (R : string) :
  snd (fold_left (Js.join_step sep) l (S k, R))
  = R ++ flat (map (fun x => sep ++ x) l).
Proof.
  revert k R; induction l as [|x l IH]; intros k R; simpl.
  - now rewrite append_nil_r.
  - rewrite IH. now rewrite !append_assoc.
Qed.

(** [join] puts the separator between consecutive elements only. *)
Lemma join_concat (sep : string) (l : list string) :
  Js.join sep l = String.concat sep l.
Proof.
  unfold Js.join. destruct l as [|x l]; [reflexivity|].
  simpl fold_left. rewrite join_step_fold. simpl ("" ++ x).
  revert x; induction l as [|y l IH]; intros x.
  - simpl. apply append_nil_r.
  - change (String.concat sep (x :: y :: l))
      with (x ++ sep ++ String.concat sep (y :: l)).
    rewrite <- IH. simpl. now rewrite !append_assoc.
Qed.

Lemma fold_left_append {A : Type} (f : A -> string) (l : list A)
    (code : string) :
  fold_left (fun code x => code ++ f x) l code = code ++ flat (map f l).
Proof.
  revert code; induction l as [|x l IH]; intros code; simpl.
  - now rewrite append_nil_r.
  - rewrite IH. now rewrite append_assoc.
Qed.

(** A list of elements each followed by the separator is the joined list
    followed by one separator, unless the list is empty. *)
Lemma flat_trailing_sep (sep : string) (l : list string) :
  l <> [] ->
  flat (map (fun x => x ++ sep) l) = String.concat sep l ++ sep.
Proof.
  induction l as [|x l IH]; intros Hl; [congruence|].
  destruct l as [|y l].
  - simpl. now rewrite append_nil_r.
  - change (flat (map (fun x => x ++ sep) (x :: y :: l)))
      with ((x ++ sep) ++ flat (map (fun x => x ++ sep) (y :: l))).
    rewrite IH by congruence.
    change (String.concat sep (x :: y :: l))
      with (x ++ sep ++ String.concat sep (y :: l)).
    now rewrite !append_assoc.
Qed.

Lemma array_includes_In (l : list string) (x : string) :
  Js.array_includes l x = true <-> In x l.
Proof.
  unfold Js.array_includes. rewrite existsb_exists. split.
  - intros [y [Hy E]]. apply String.eqb_eq in E. now subst.
  - intros H. exists x. split; [exact H | apply String.eqb_refl].
Qed.

(** [endsWith] holds exactly of the strings that are some prefix followed
    by the suffix. *)
Lemma endsWith_spec (s suffix : string) :
  Js.endsWith s suffix = true <-> exists p, s = p ++ suffix.
Proof.
  unfold Js.endsWith. rewrite andb_true_iff, Nat.leb_le, String.eqb_eq.
  split.
  - intros [Hle Hsub].
    exists (String.substring 0 (String.length s - String.length suffix) s).
    pose proof (substring_split s (String.length s - String.length suffix))
      as Hsplit.
    replace (String.length s - (String.length s - String.length suffix))
      with (String.length suffix) in Hsplit by lia.
    rewrite Hsub in Hsplit. apply Hsplit. lia.
  - intros [p ->]. rewrite length_append. split; [lia|].
    replace (String.length p + String.length suffix - String.length suffix)
      with (String.length p) by lia.
    apply substring_suffix.
Qed.

End StringFacts.

(** ** The type-expression resolver *)

Section Resolver.

Lemma map_option_all (fuel : nat) (l : list InstanceOf) :
  Forall (fun t => forall n, height t <= n ->
                   unwrapType_fuel n t = Some (unwrapType t)) l ->
  list_max (map height l) <= fuel ->
  map_option (unwrapType_fuel fuel) l = Some (map unwrapType l).
Proof.
  induction 1 as [|t l Ht _ IH]; intros Hmax; [reflexivity|].
  simpl in Hmax |- *.
  rewrite Ht by lia. rewrite IH by lia. reflexivity.
Qed.

(** With fuel for the nesting depth of the expression, the fuelled
    resolver returns, and returns what [unwrapType] computes. *)
Lemma unwrapType_fuel_enough (type : InstanceOf) :
  forall fuel, height type <= fuel ->
               unwrapType_fuel fuel type = Some (unwrapType type).
Proof.
  induction type using InstanceOf_nested_ind; intros fuel Hf;
    (destruct fuel as [|fuel]; [simpl in Hf; lia|]); simpl in Hf |- *.
  - rewrite IHtype by lia. reflexivity.
  - rewrite IHtype1, IHtype2 by lia. reflexivity.
  - rewrite IHtype by lia. reflexivity.
  - rewrite (map_option_all fuel items) by (auto; lia). reflexivity.
  - rewrite (map_option_all fuel cg) by (auto; lia).
    destruct (String.eqb n "DictionaryResponseBase"); [reflexivity|].
    destruct (1 <? List.length cg)%nat; reflexivity.
  - reflexivity.
  - rewrite (map_option_all fuel cg) by (auto; lia).
    destruct (0 <? List.length cg)%nat; reflexivity.
Qed.

Lemma size_in_list (t : InstanceOf) (l : list InstanceOf) :
  In t l -> size t <= list_sum (map size l).
Proof.
  induction l as [|x l IH]; simpl; [tauto|].
  intros [->|H]; [lia | specialize (IH H); lia].
Qed.

Lemma smaller_than_sum (l : list InstanceOf) :
  Forall (fun sub => size sub < S (list_sum (map size l))) l.
Proof.
  apply Forall_forall. intros t Ht. pose proof (size_in_list t l Ht). lia.
Qed.

End Resolver.

(** C9.  [unwrapType] is total on the six variants of a type expression:
    called with fuel for the nesting depth of the expression (or more) the
    resolver returns a string, the one [unwrapType] denotes; every recursive
    call is on an expression of strictly smaller size; and a bare reference
    renders as its name whatever the catalogue holds. *)
Theorem unwrapType_total (type : InstanceOf) :
  (forall extra,
      unwrapType_fuel (height type + extra) type = Some (unwrapType type))
  /\ Forall (fun sub => size sub < size type) (recursiveCalls type)
  /\ (forall name, unwrapType (TypeRef name None) = name).
Proof.
  split; [|split].
  - intros extra. apply unwrapType_fuel_enough. lia.
  - destruct type as [o|k v|v|items|n cg|n [cg|]]; simpl.
    + constructor; [lia | constructor].
    + constructor; [lia | constructor; [lia | constructor]].
    + constructor; [lia | constructor].
    + apply smaller_than_sum.
    + destruct (String.eqb n "DictionaryResponseBase");
        [apply smaller_than_sum|].
      destruct (1 <? List.length cg)%nat;
        [apply smaller_than_sum | constructor].
    + apply smaller_than_sum.
    + constructor.
  - reflexivity.
Qed.

(** C3.  An [ImplementsReference] to [DictionaryResponseBase] renders as
    [Record<...>] over the renderings of its closed generics in order; any
    other reference with more than one closed generic renders as its name
    applied to those renderings; with one closed generic or none it renders
    as the bare name. *)
Theorem unwrapType_ImplementsReference
    (type_name : string) (closedGenerics : list InstanceOf) :
  let rendered := String.concat ", " (map unwrapType closedGenerics) in
  (type_name = "DictionaryResponseBase" ->
     unwrapType (ImplementsReference type_name closedGenerics)
     = "Record<" ++ rendered ++ ">")
  /\ (type_name <> "DictionaryResponseBase" ->
      1 < List.length closedGenerics ->
      unwrapType (ImplementsReference type_name closedGenerics)
      = type_name ++ "<" ++ rendered ++ ">")
  /\ (type_name <> "DictionaryResponseBase" ->
      List.length closedGenerics <= 1 ->
      unwrapType (ImplementsReference type_name closedGenerics) = type_name).
Proof.
  intros rendered. subst rendered. simpl. rewrite join_concat.
  repeat split.
  - intros ->. reflexivity.
  - intros Hn Hl. apply String.eqb_neq in Hn. rewrite Hn.
    apply Nat.ltb_lt in Hl. rewrite Hl. reflexivity.
  - intros Hn Hl. apply String.eqb_neq in Hn. rewrite Hn.
    apply Nat.ltb_ge in Hl. rewrite Hl. reflexivity.
Qed.

Lemma unwrapType_ImplementsReference_witness :
  unwrapType (ImplementsReference "DictionaryResponseBase"
                [TypeRef "K" None; TypeRef "V" None]) = "Record<K, V>"
  /\ unwrapType (ImplementsReference "Hit"
                   [TypeRef "A" None; TypeRef "B" None]) = "Hit<A, B>"
  /\ unwrapType (ImplementsReference "Hit" [TypeRef "A" None]) = "Hit".
Proof.
  split; [|split].
  - apply (proj1 (unwrapType_ImplementsReference "DictionaryResponseBase"
                    [TypeRef "K" None; TypeRef "V" None])).
    reflexivity.
  - apply (proj1 (proj2 (unwrapType_ImplementsReference "Hit"
                           [TypeRef "A" None; TypeRef "B" None]))).
    + discriminate.
    + simpl. lia.
  - apply (proj2 (proj2 (unwrapType_ImplementsReference "Hit"
                           [TypeRef "A" None]))).
    + discriminate.
    + simpl. lia.
Defined.

(** ** The declaration emitters *)

Section Emitters.

Lemma fold_appendProperty (indent : string) (props : list InterfaceProperty)
    (code : string) :
  fold_left (appendProperty indent) props code
  = code ++ flat (memberLines indent props).
Proof.
  revert code; induction props as [|p props IH]; intros code.
  - simpl. now rewrite append_nil_r.
  - simpl fold_left. rewrite IH. unfold appendProperty, memberLines.
    simpl definedProperties. destruct (property_type p) as [t|].
    + simpl. now rewrite !append_assoc.
    + reflexivity.
Qed.

Lemma buildInterface_shape (type : Interface) :
  buildInterface type
  = generateComment type ++ "  export interface "
    ++ (interface_name type ++ buildGeneric type ++ buildInherits type
        ++ " {" ++ nl ++ flat (memberLines "    " (properties type))
        ++ "  }").
Proof.
  unfold buildInterface. rewrite fold_appendProperty.
  now rewrite !append_assoc.
Qed.

Lemma memberLines_format (indent : string)
    (props : list InterfaceProperty) :
  Forall2 (fun property line =>
             exists t,
               property_type property = Some t
               /\ line = indent
                         ++ cleanPropertyName (property_name property)
                         ++ (if property_nullable property then "?" else "")
                         ++ ": " ++ unwrapType t ++ nl)
          (filter hasType props) (memberLines indent props).
Proof.
  unfold memberLines, hasType.
  induction props as [|p props IH]; simpl; [constructor|].
  destruct (property_type p) as [t|] eqn:E; simpl; [|exact IH].
  constructor; [|exact IH]. exists t. split; [exact E | reflexivity].
Qed.

Lemma memberLines_typed (indent : string) (props : list InterfaceProperty) :
  memberLines indent (filter hasType props) = memberLines indent props.
Proof.
  unfold memberLines, hasType. f_equal.
  induction props as [|p props IH]; simpl; [reflexivity|].
  destruct (property_type p) as [t|] eqn:E; simpl; [|exact IH].
  rewrite E. simpl. now rewrite IH.
Qed.

Lemma buildRequestInterface_shape (type : RequestInterface) :
  buildRequestInterface type
  = generateComment type ++ "  export interface "
    ++ (interface_name type ++ buildGeneric type ++ buildInherits type
        ++ " {" ++ nl
        ++ flat (memberLines "    " (orEmpty (path type)))
        ++ flat (memberLines "    " (orEmpty (queryParameters type)))
        ++ bodyMember (body type)
        ++ "  }").
Proof.
  unfold buildRequestInterface, bodyMember, orEmpty.
  destruct (path type) as [ps|], (queryParameters type) as [qs|],
    (body type) as [[bs|b]|];
    rewrite ?fold_appendProperty; unfold memberLines at 1; simpl flat;
    rewrite ?append_nil_r, ?append_assoc; reflexivity.
Qed.

Lemma generateComment_expected (type : Interface) :
  generateComment type = expectedAnnotation (interface_name type).
Proof.
  unfold generateComment, expectedAnnotation.
  destruct (in_dec string_dec (interface_name type) stableApis) as [Hin|Hin].
  - apply array_includes_In in Hin. rewrite Hin. reflexivity.
  - destruct (Js.array_includes stableApis (interface_name type)) eqn:E.
    + apply array_includes_In in E. contradiction.
    + destruct (Js.endsWith _ "Request" || Js.endsWith _ "Response");
        reflexivity.
Qed.

Lemma expectedAnnotation_cases (name : string) :
  (In name stableApis -> expectedAnnotation name = stabilityComment "STABLE")
  /\ (~ In name stableApis ->
      endsIn name "Request" \/ endsIn name "Response" ->
      expectedAnnotation name = stabilityComment "UNSTABLE")
  /\ (~ In name stableApis ->
      ~ endsIn name "Request" -> ~ endsIn name "Response" ->
      expectedAnnotation name = "").
Proof.
  unfold expectedAnnotation, endsIn.
  destruct (in_dec string_dec name stableApis) as [Hin|Hin];
    repeat split; try tauto; intros _.
  - intros H.
    assert (Js.endsWith name "Request" || Js.endsWith name "Response" = true)
      as ->; [|reflexivity].
    apply orb_true_iff. rewrite !endsWith_spec. exact H.
  - intros H1 H2.
    assert (Js.endsWith name "Request" || Js.endsWith name "Response" = false)
      as ->; [|reflexivity].
    apply orb_false_iff.
    split; apply not_true_is_false; rewrite endsWith_spec; assumption.
Qed.

Lemma buildInherits_rendered (type : Interface)
    (ancestors : list InstanceOf) :
  inherits type = Some ancestors -> ancestors <> [] ->
  (List.length ancestors =? 1)%nat
  && Js.truthy_property (Js.get (inheritsFromUnresolved type) "ResponseBase")
  = false ->
  buildInherits type = extendsClause ancestors.
Proof.
  intros Hi Hne Hcond. unfold buildInherits, extendsClause.
  rewrite Hi, Hcond.
  destruct ancestors as [|a rest]; [congruence|]. simpl Nat.ltb. cbv iota.
  rewrite (fold_left_append (fun i => unwrapType i ++ ", ")).
  rewrite <- (map_map unwrapType (fun x => x ++ ", ")).
  rewrite flat_trailing_sep by (simpl; congruence).
  rewrite <- append_assoc. apply slice_drop_last2. reflexivity.
Qed.

End Emitters.

(** C1, refuted as worded.  A single ancestor that is an excluded base name
    does not always drop the clause: [DictionaryResponseBase] is excluded
    from emission, yet as the only ancestor it is rendered, as a [Record]. *)
Lemma inheritance_rule_as_specified_fails : ~ inheritance_rule_as_specified.
Proof.
  intros H.
  pose (ancestor := ImplementsReference "DictionaryResponseBase"
                      [TypeRef "string" None; TypeRef "V" None]).
  pose (type := mkInterface "GetAliasResponse" None (Some [ancestor])
                  [("DictionaryResponseBase", ["string"; "V"])] []).
  destruct (H type [ancestor] eq_refl ltac:(discriminate)) as [Hdrop _].
  assert (buildInherits type = "") as E
    by (apply Hdrop; exists ancestor; split; reflexivity).
  vm_compute in E. discriminate E.
Qed.

(** C1, as the code has it.  For an interface or request interface with a
    non-empty [inherits]: with exactly one ancestor and the [ResponseBase]
    property of [inheritsFromUnresolved] set, the declaration has no
    inheritance clause; with two or more ancestors, or with that property
    unset, the clause is [ extends ] followed by the rendering of every
    ancestor, in order, separated by commas. *)
Theorem buildInherits_rule (type : Interface) (ancestors : list InstanceOf) :
  inherits type = Some ancestors -> ancestors <> [] ->
  (List.length ancestors = 1 ->
   Js.get (inheritsFromUnresolved type) "ResponseBase" <> None ->
   buildInherits type = "")
  /\ (2 <= List.length ancestors
      \/ Js.get (inheritsFromUnresolved type) "ResponseBase" = None ->
      buildInherits type = extendsClause ancestors).
Proof.
  intros Hi Hne. split.
  - intros Hlen Hset. unfold buildInherits. rewrite Hi, Hlen. simpl.
    destruct (Js.get (inheritsFromUnresolved type) "ResponseBase");
      [reflexivity | congruence].
  - intros Hcase. apply buildInherits_rendered; [assumption .. |].
    apply andb_false_iff. destruct Hcase as [Hlen | Hunset].
    + left. apply Nat.eqb_neq. lia.
    + right. rewrite Hunset. reflexivity.
Qed.

Lemma buildInherits_rule_witness :
  buildInherits (mkInterface "GetResponse" None
                   (Some [ImplementsReference "ResponseBase" []])
                   [("ResponseBase", [])] []) = ""
  /\ buildInherits (mkInterface "Hit" None
                      (Some [TypeRef "A" None; TypeRef "B" None]) [] [])
     = " extends A, B".
Proof.
  split.
  - apply (proj1 (buildInherits_rule
                    (mkInterface "GetResponse" None
                       (Some [ImplementsReference "ResponseBase" []])
                       [("ResponseBase", [])] [])
                    [ImplementsReference "ResponseBase" []]
                    eq_refl ltac:(discriminate)));
      [reflexivity | discriminate].
  - apply (proj2 (buildInherits_rule
                    (mkInterface "Hit" None
                       (Some [TypeRef "A" None; TypeRef "B" None]) [] [])
                    [TypeRef "A" None; TypeRef "B" None]
                    eq_refl ltac:(discriminate))).
    left. simpl. lia.
Defined.

(** C2, refuted as worded.  An alias is emitted without annotation even
    when its name is in the stable list. *)
Lemma annotation_rule_as_specified_fails : ~ annotation_rule_as_specified.
Proof.
  intros H.
  destruct (H (mkEnv None) (StringAlias "IndexRequest") _ eq_refl)
    as [rest E].
  vm_compute in E. discriminate E.
Qed.

(** C2, as the code has it.  The declaration of an interface or request
    interface starts with the annotation of its name: the STABLE comment
    when the name is in [stableApis], the UNSTABLE comment when it is not
    but ends in [Request] or [Response], nothing otherwise; the annotation
    is a function of the name alone.  The declaration of an alias or enum
    starts with its [export] header, without annotation. *)
Theorem annotation_rule (env : Env) (type : TypeDeclaration) (text : string) :
  emitted env type = Some text ->
  let name := declaration_name type in
  (isInterfaceLike type = true ->
   exists rest,
     text = expectedAnnotation name ++ "  export interface " ++ rest)
  /\ (isInterfaceLike type = false -> exists rest, text = "  export " ++ rest)
  /\ (In name stableApis -> expectedAnnotation name = stabilityComment "STABLE")
  /\ (~ In name stableApis ->
      endsIn name "Request" \/ endsIn name "Response" ->
      expectedAnnotation name = stabilityComment "UNSTABLE")
  /\ (~ In name stableApis ->
      ~ endsIn name "Request" -> ~ endsIn name "Response" ->
      expectedAnnotation name = "").
Proof.
  intros Hemit name. split; [|split; [|apply expectedAnnotation_cases]].
  - unfold emitted in Hemit.
    destruct (Js.array_includes skipInterface (declaration_name type));
      [discriminate|].
    destruct type; try discriminate; intros _; injection Hemit as <-;
      subst name; simpl declaration_name.
    + rewrite buildRequestInterface_shape, generateComment_expected.
      eexists. reflexivity.
    + rewrite buildInterface_shape, generateComment_expected.
      eexists. reflexivity.
  - unfold emitted in Hemit.
    destruct (Js.array_includes skipInterface (declaration_name type));
      [discriminate|].
    destruct type; try discriminate; intros _; injection Hemit as <-.
    + eexists. reflexivity.
    + eexists. reflexivity.
    + eexists. reflexivity.
    + unfold buildEnum. destruct (Js.truthy_env (ENUM_AS_UNION env)).
      * eexists. reflexivity.
      * rewrite (fold_left_append
                   (fun member =>
                      "    " ++ cleanPropertyName (member_name member)
                      ++ " = " ++ dq ++ stringRepresentation member
                      ++ dq ++ "," ++ nl)).
        rewrite !append_assoc. eexists. reflexivity.
Qed.

Lemma annotation_rule_witness :
  (exists rest,
      buildInterface (mkInterface "IndexRequest" None None [] [])
      = expectedAnnotation "IndexRequest" ++ "  export interface " ++ rest)
  /\ (exists rest, buildNumberAlias "long" = "  export " ++ rest)
  /\ expectedAnnotation "IndexRequest" = stabilityComment "STABLE".
Proof.
  split; [|split].
  - apply (proj1 (annotation_rule (mkEnv None)
                    (InterfaceDecl (mkInterface "IndexRequest" None None [] []))
                    _ eq_refl)).
    reflexivity.
  - apply (proj1 (proj2 (annotation_rule (mkEnv None) (NumberAlias "long")
                           _ eq_refl))).
    reflexivity.
  - apply (proj1 (proj2 (proj2 (annotation_rule (mkEnv None)
                    (InterfaceDecl (mkInterface "IndexRequest" None None [] []))
                    _ eq_refl)))).
    simpl. tauto.
Defined.

(** C5.  The members of a request interface come in the order path
    properties, query properties, body; every property with a type gives
    one line made of the sanitized name, [?] when nullable, and the
    rendering of the type; a body given as properties becomes a nested
    optional [body] object holding their lines one level deeper, a body
    given as a type expression becomes one optional [body] member. *)
Theorem buildRequestInterface_members (type : RequestInterface) :
  buildRequestInterface type
  = generateComment type ++ "  export interface " ++ interface_name type
    ++ buildGeneric type ++ buildInherits type ++ " {" ++ nl
    ++ flat (memberLines "    " (orEmpty (path type)))
    ++ flat (memberLines "    " (orEmpty (queryParameters type)))
    ++ bodyMember (body type)
    ++ "  }"
  /\ (forall indent props,
         Forall2 (fun property line =>
                    exists t,
                      property_type property = Some t
                      /\ line = indent
                                ++ cleanPropertyName (property_name property)
                                ++ (if property_nullable property
                                    then "?" else "")
                                ++ ": " ++ unwrapType t ++ nl)
                 (filter hasType props) (memberLines indent props))
  /\ (forall props,
         body type = Some (BodyProperties props) ->
         bodyMember (body type)
         = "    body?: {" ++ nl ++ flat (memberLines "      " props)
           ++ "    }" ++ nl)
  /\ (forall b,
         body type = Some (BodyType b) ->
         bodyMember (body type) = "    body?: " ++ unwrapType b ++ nl).
Proof.
  split; [apply buildRequestInterface_shape|].
  split; [intros indent props; apply memberLines_format|].
  split; intros x ->; reflexivity.
Qed.

Lemma buildRequestInterface_members_witness :
  bodyMember (Some (BodyProperties
                      [mkProperty "query" (Some (TypeRef "QueryContainer" None))
                                  true]))
  = "    body?: {" ++ nl ++ "      query?: QueryContainer" ++ nl
    ++ "    }" ++ nl
  /\ bodyMember (Some (BodyType (TypeRef "T" None)))
     = "    body?: T" ++ nl.
Proof.
  split.
  - exact (proj1 (proj2 (proj2 (buildRequestInterface_members
       (mkRequest (mkInterface "SearchRequest" None None [] []) None None
          (Some (BodyProperties
                   [mkProperty "query" (Some (TypeRef "QueryContainer" None))
                               true]))))))
       [mkProperty "query" (Some (TypeRef "QueryContainer" None)) true]
       eq_refl).
  - exact (proj2 (proj2 (proj2 (buildRequestInterface_members
       (mkRequest (mkInterface "IndexRequest" None None [] []) None None
          (Some (BodyType (TypeRef "T" None)))))))
       (TypeRef "T" None) eq_refl).
Defined.

(** C6.  The block of an interface holds one member line for each property
    that has a type, in order, and nothing else: with [k] such properties
    among the [N] there are exactly [k] lines, the [i]-th naming the [i]-th
    of them; a property without a type leaves no trace, the output being
    that of the interface without it. *)
Theorem buildInterface_member_lines (type : Interface) :
  let lines := memberLines "    " (properties type) in
  let typed := filter hasType (properties type) in
  buildInterface type
  = generateComment type ++ "  export interface " ++ interface_name type
    ++ buildGeneric type ++ buildInherits type ++ " {" ++ nl
    ++ flat lines ++ "  }"
  /\ List.length lines = List.length typed
  /\ List.length typed <= List.length (properties type)
  /\ Forall2 (fun property line =>
                exists t,
                  property_type property = Some t
                  /\ line = "    "
                            ++ cleanPropertyName (property_name property)
                            ++ (if property_nullable property then "?" else "")
                            ++ ": " ++ unwrapType t ++ nl)
             typed lines
  /\ buildInterface type
     = buildInterface (mkInterface (interface_name type) (openGenerics type)
                         (inherits type) (inheritsFromUnresolved type) typed).
Proof.
  intros lines typed. subst lines typed.
  pose proof (memberLines_format "    " (properties type)) as Hfmt.
  split; [apply buildInterface_shape|].
  split; [symmetry; eapply Forall2_length; exact Hfmt|].
  split; [apply filter_length_le|].
  split; [exact Hfmt|].
  rewrite !buildInterface_shape. simpl.
  now rewrite memberLines_typed.
Qed.

Lemma enum_literal_eqb (member : EnumMember) :
  (if String.eqb (stringRepresentation member) "true"
      || String.eqb (stringRepresentation member) "false"
   then stringRepresentation member
   else dq ++ stringRepresentation member ++ dq)
  = enumLiteral member.
Proof.
  unfold enumLiteral.
  destruct (string_dec (stringRepresentation member) "true") as [E|E].
  - rewrite E. reflexivity.
  - apply String.eqb_neq in E. rewrite E. simpl orb.
    destruct (string_dec (stringRepresentation member) "false") as [F|F].
    + rewrite F. reflexivity.
    + apply String.eqb_neq in F. rewrite F. reflexivity.
Qed.

(** C7.  In literal-union mode an enum is the alias of its name to the
    alternation, in member order, of the members' literals: the string
    representation between double quotes, except [true] and [false], which
    stand unquoted. *)
Theorem buildEnum_literal_union (env : Env) (type : Enum) :
  Js.truthy_env (ENUM_AS_UNION env) = true ->
  buildEnum env type
  = "  export type " ++ enum_name type ++ " = "
    ++ String.concat " | " (map enumLiteral (members type))
  /\ (forall member,
         (stringRepresentation member = "true"
          \/ stringRepresentation member = "false" ->
          enumLiteral member = stringRepresentation member)
         /\ (stringRepresentation member <> "true" ->
             stringRepresentation member <> "false" ->
             enumLiteral member
             = dq ++ stringRepresentation member ++ dq)).
Proof.
  intros Hmode. split.
  - unfold buildEnum. rewrite Hmode, join_concat.
    do 4 f_equal. apply map_ext. apply enum_literal_eqb.
  - intros member. unfold enumLiteral.
    destruct (string_dec (stringRepresentation member) "true");
      destruct (string_dec (stringRepresentation member) "false");
      split; intros; tauto || congruence.
Qed.

Lemma buildEnum_literal_union_witness :
  buildEnum (mkEnv (Some "1"))
            (mkEnum "Conflicts"
               [mkMember "abort" "abort"; mkMember "proceed" "proceed";
                mkMember "yes" "true"])
  = "  export type Conflicts = " ++ dq ++ "abort" ++ dq ++ " | "
    ++ dq ++ "proceed" ++ dq ++ " | true".
Proof.
  exact (proj1 (buildEnum_literal_union (mkEnv (Some "1"))
                  (mkEnum "Conflicts"
                     [mkMember "abort" "abort"; mkMember "proceed" "proceed";
                      mkMember "yes" "true"])
                  eq_refl)).
Defined.

(** ** The walker and the assembler *)

Section Walker.

Variable env : Env.

Lemma walk_step_emitted (buffer : string) (type : TypeDeclaration) :
  walk_step env buffer type
  = match emitted env type with
    | Some text => buffer ++ (text ++ (nl ++ nl))
    | None => buffer
    end.
Proof.
  unfold walk_step, emitted.
  destruct (Js.array_includes skipInterface (declaration_name type));
    [reflexivity|].
  destruct type; reflexivity.
Qed.

Lemma walk_declarations (types : list TypeDeclaration) (buffer : string) :
  fold_left (walk_step env) types buffer
  = buffer
    ++ flat (map (fun text => text ++ (nl ++ nl)) (declarations env types)).
Proof.
  revert buffer; induction types as [|type types IH]; intros buffer.
  - simpl. now rewrite append_nil_r.
  - simpl fold_left. rewrite IH, walk_step_emitted. simpl declarations.
    destruct (emitted env type) as [text|]; [|reflexivity].
    simpl. now rewrite !append_assoc.
Qed.

(** When the walk emits something, the text written is the namespace
    around the declarations, one blank line between two of them. *)
Lemma typeDefinitions_some (types : list TypeDeclaration) :
  declarations env types <> [] ->
  typeDefinitions env types = assembled (declarations env types).
Proof.
  intros Hne. unfold typeDefinitions, assembled.
  rewrite walk_declarations, flat_trailing_sep by exact Hne.
  rewrite <- (append_assoc ("declare namespace T {" ++ nl)
                (String.concat (nl ++ nl) (declarations env types))
                (nl ++ nl)).
  rewrite slice_drop_last2 by reflexivity.
  now rewrite !append_assoc.
Qed.

(** When the walk emits nothing, the two characters cut are the brace and
    the line feed of the header. *)
Lemma typeDefinitions_none (types : list TypeDeclaration) :
  declarations env types = [] ->
  typeDefinitions env types
  = "declare namespace T " ++ nl ++ "}" ++ nl ++ nl ++ "export default T".
Proof.
  intros Hnone. unfold typeDefinitions.
  rewrite walk_declarations, Hnone. reflexivity.
Qed.

Lemma declarations_none (types : list TypeDeclaration) :
  Forall (fun type => In (declaration_name type) skipInterface
                      \/ exists name, type = OtherDeclaration name) types ->
  declarations env types = [].
Proof.
  induction 1 as [|type types Htype _ IH]; [reflexivity|].
  simpl. replace (emitted env type) with (@None string); [exact IH|].
  unfold emitted. destruct Htype as [Hskip | [name ->]].
  - apply array_includes_In in Hskip. now rewrite Hskip.
  - now destruct (Js.array_includes _ _).
Qed.

End Walker.

(** C8.  Whatever the catalogue, the value of [ENUM_AS_UNION] does not
    reach the declaration of an entry that is not an enum: two runs that
    differ only in the toggle emit the same text for it, and the walker
    appends the same text to the same buffer. *)
Theorem enum_toggle_noninterference
    (env1 env2 : Env) (types : list TypeDeclaration) (type : TypeDeclaration) :
  In type types -> isEnum type = false ->
  emitted env1 type = emitted env2 type
  /\ (forall buffer, walk_step env1 buffer type = walk_step env2 buffer type).
Proof.
  intros _ Hne.
  assert (emitted env1 type = emitted env2 type) as E.
  { unfold emitted. destruct type; try reflexivity. discriminate Hne. }
  split; [exact E|].
  intros buffer. now rewrite !walk_step_emitted, E.
Qed.

Lemma enum_toggle_noninterference_witness :
  emitted (mkEnv (Some "1")) (UnionAlias "Id" (UnionOf [TypeRef "string" None; TypeRef "number" None]))
  = emitted (mkEnv None) (UnionAlias "Id" (UnionOf [TypeRef "string" None; TypeRef "number" None])).
Proof.
  apply (proj1 (enum_toggle_noninterference (mkEnv (Some "1")) (mkEnv None)
                  [EnumDecl (mkEnum "Conflicts" [mkMember "abort" "abort"]);
                   UnionAlias "Id" (UnionOf [TypeRef "string" None;
                                             TypeRef "number" None])]
                  (UnionAlias "Id" (UnionOf [TypeRef "string" None;
                                             TypeRef "number" None]))
                  ltac:(simpl; tauto) eq_refl)).
Defined.

(** C4.  A run does one write, of the text [typeDefinitions]; when the walk
    emits at least one declaration that text is the namespace around the
    declarations, consecutive ones one blank line apart and nothing after
    the last; on the empty catalogue it is not: the header has lost its
    brace. *)
Theorem typeDefinitions_assembled (env : Env) (types : list TypeDeclaration) :
  (declarations env types <> [] ->
   typeDefinitions env types = assembled (declarations env types))
  /\ (forall dirname fs,
         writes (main dirname env types fs)
         = (writes fs
            ++ [([dirname; ".."; "output"; "typescript"; "types.ts"],
                 typeDefinitions env types)])%list)
  /\ typeDefinitions env [] <> assembled (declarations env [])
  /\ typeDefinitions env []
     = "declare namespace T " ++ nl ++ "}" ++ nl ++ nl ++ "export default T".
Proof.
  split; [apply typeDefinitions_some|].
  split; [reflexivity|].
  split; [|reflexivity].
  vm_compute. discriminate.
Qed.

Lemma typeDefinitions_assembled_witness :
  typeDefinitions (mkEnv None) [StringAlias "Id"; NumberAlias "long"]
  = "declare namespace T {" ++ nl
    ++ "  export type Id = string" ++ nl ++ nl
    ++ "  export type long = number" ++ nl
    ++ "}" ++ nl ++ nl ++ "export default T".
Proof.
  apply (proj1 (typeDefinitions_assembled (mkEnv None)
                  [StringAlias "Id"; NumberAlias "long"])).
  discriminate.
Defined.

(** C10.  When no entry of the catalogue is emitted, each being excluded or
    of no known variant, the text written is [declare namespace T ], a line
    feed, the closing brace, a blank line and [export default T]: the
    opening brace is gone, so there is no namespace block. *)
Theorem typeDefinitions_nothing_emitted
    (env : Env) (types : list TypeDeclaration)
    (dirname : string) (fs : FileSystem) :
  Forall (fun type => In (declaration_name type) skipInterface
                      \/ exists name, type = OtherDeclaration name) types ->
  let text :=
    "declare namespace T " ++ nl ++ "}" ++ nl ++ nl ++ "export default T" in
  typeDefinitions env types = text
  /\ writes (main dirname env types fs)
     = (writes fs
        ++ [([dirname; ".."; "output"; "typescript"; "types.ts"], text)])%list
  /\ Js.includes text "{" = false.
Proof.
  intros Hnone text.
  assert (typeDefinitions env types = text) as E
    by (apply typeDefinitions_none, declarations_none, Hnone).
  split; [exact E|]. split; [|reflexivity].
  unfold main, writeFileSync. simpl. now rewrite E.
Qed.

Lemma typeDefinitions_nothing_emitted_witness :
  typeDefinitions (mkEnv None)
    [InterfaceDecl (mkInterface "ResponseBase" None None [] []);
     OtherDeclaration "Union"]
  = "declare namespace T " ++ nl ++ "}" ++ nl ++ nl ++ "export default T".
Proof.
  apply (proj1 (typeDefinitions_nothing_emitted (mkEnv None)
                  [InterfaceDecl (mkInterface "ResponseBase" None None [] []);
                   OtherDeclaration "Union"]
                  "/generator" (mkFs [])
                  ltac:(constructor;
                        [ left; simpl; tauto
                        | constructor;
                          [ right; eexists; reflexivity | constructor ] ]))).
Defined.

(** ** Further properties of the emitters *)

Section NameFacts.

Lemma includes_char (s : string) (c : ascii) :
  Js.includes s (String c EmptyString) = true <-> In c (chars s).
Proof.
  unfold chars. induction s as [|a s IH]; simpl.
  - split; [discriminate | tauto].
  - rewrite orb_true_iff, IH. destruct (ascii_dec c a) as [->|Hne].
    + split; [now left | intros _; left; now destruct s].
    + split.
      * intros [H|H]; [discriminate | now right].
      * intros [H|H]; [congruence | now right].
Qed.

Lemma quoted_differs (name : string) : dq ++ name ++ dq <> name.
Proof.
  intros E. apply (f_equal String.length) in E.
  rewrite !length_append in E. simpl in E. lia.
Qed.

Lemma stableApis_suffix (name : string) :
  In name stableApis ->
  Js.endsWith name "Request" || Js.endsWith name "Response" = true.
Proof.
  unfold stableApis. simpl.
  intros H. repeat (destruct H as [<-|H]; [reflexivity|]). contradiction.
Qed.

End NameFacts.

(** X1.  [cleanPropertyName] returns the name unchanged exactly when the name
    holds no period and no hyphen and does not start with a digit or a
    non-word character; in every other case it returns the name between
    double quotes, the name itself being copied without escaping. *)
Theorem cleanPropertyName_bare_iff (name : string) :
  (cleanPropertyName name = name <-> bareName name)
  /\ (~ bareName name -> cleanPropertyName name = dq ++ name ++ dq).
Proof.
  assert (bareName name \/
          (~ bareName name /\ cleanPropertyName name = dq ++ name ++ dq)
          /\ True) as Hcase.
  { unfold cleanPropertyName, bareName.
    destruct (Js.includes name ".") eqn:Hdot.
    { right. split; [|exact I]. split; [|reflexivity].
      apply includes_char in Hdot. tauto. }
    destruct (Js.includes name "-") eqn:Hhyp.
    { right. split; [|exact I]. split; [|reflexivity].
      apply includes_char in Hhyp. tauto. }
    assert (~ In "."%char (chars name)) as Hd
      by (rewrite <- includes_char; congruence).
    assert (~ In "-"%char (chars name)) as Hh
      by (rewrite <- includes_char; congruence).
    destruct name as [|c rest]; [left; tauto|].
    cbn [orb]. unfold match_digit_or_nonword.
    destruct (Js.is_digit c) eqn:Hdig; cbn [orb negb].
    { right. split; [|exact I]. split; [|reflexivity].
      intros (_ & _ & Hc & _). discriminate. }
    destruct (Js.is_word c) eqn:Hw; cbn [orb negb].
    - left. tauto.
    - right. split; [|exact I]. split; [|reflexivity].
      intros (_ & _ & _ & Hc). discriminate. }
  destruct Hcase as [Hbare | [[Hnot Hq] _]].
  - split; [|tauto]. split; [tauto|]. intros _.
    unfold cleanPropertyName, bareName in *.
    destruct Hbare as (Hd & Hh & Hc).
    rewrite <- includes_char in Hd, Hh.
    apply not_true_is_false in Hd, Hh. rewrite Hd, Hh. simpl orb.
    destruct name as [|c rest]; [reflexivity|].
    simpl. destruct Hc as [-> ->]. reflexivity.
  - split; [|intros _; exact Hq].
    split; [|tauto]. intros E. rewrite Hq in E.
    now apply quoted_differs in E.
Qed.

Lemma cleanPropertyName_bare_iff_witness :
  cleanPropertyName "a b" = "a b"
  /\ cleanPropertyName "@timestamp" = dq ++ "@timestamp" ++ dq.
Proof.
  split.
  - apply (proj1 (cleanPropertyName_bare_iff "a b")).
    unfold bareName, chars. simpl.
    repeat split; intros H;
      repeat (destruct H as [H|H]; [discriminate H|]); exact H.
  - apply (proj2 (cleanPropertyName_bare_iff "@timestamp")).
    intros (_ & _ & _ & H). discriminate H.
Defined.

(** X2.  An interface or request interface carries a stability comment
    exactly when its name ends in [Request] or [Response]; the comment is
    then one of the two fixed three-line texts, the STABLE one exactly for
    the names of [stableApis]. *)
Theorem generateComment_annotated_iff (type : Interface) :
  let name := interface_name type in
  (generateComment type <> "" <->
   endsIn name "Request" \/ endsIn name "Response")
  /\ (generateComment type = stabilityComment "STABLE" <-> In name stableApis)
  /\ (generateComment type = ""
      \/ generateComment type = stabilityComment "STABLE"
      \/ generateComment type = stabilityComment "UNSTABLE").
Proof.
  intros name. subst name. unfold generateComment, endsIn.
  rewrite <- !endsWith_spec, <- orb_true_iff.
  destruct (Js.array_includes stableApis (interface_name type)) eqn:Hin.
  - apply array_includes_In in Hin. cbv zeta.
    split; [|split].
    + split; [intros _; now apply stableApis_suffix | discriminate].
    + split; [intros _; exact Hin | reflexivity].
    + right. left. reflexivity.
  - assert (~ In (interface_name type) stableApis) as Hnot
      by (rewrite <- array_includes_In; congruence).
    destruct (Js.endsWith _ "Request" || Js.endsWith _ "Response");
      cbv zeta; (split; [|split]).
    + split; [reflexivity | discriminate].
    + split; [discriminate | contradiction].
    + right. right. reflexivity.
    + split; [congruence | discriminate].
    + split; [discriminate | contradiction].
    + left. reflexivity.
Qed.

Lemma generateComment_annotated_iff_witness :
  generateComment (mkInterface "SearchResponse" None None [] []) <> ""
  /\ In "GetRequest" stableApis.
Proof.
  split.
  - apply (proj1 (generateComment_annotated_iff
                    (mkInterface "SearchResponse" None None [] []))).
    right. exists "Search". reflexivity.
  - apply (proj1 (proj2 (generateComment_annotated_iff
                           (mkInterface "GetRequest" None None [] [])))).
    reflexivity.
Defined.

(** X3.  [buildInherits] returns the empty string exactly when [inherits]
    is absent, is empty, or holds one ancestor while the [ResponseBase]
    property of [inheritsFromUnresolved] is set; in every other case the
    result starts with [ extends ], so the two-character trim never reaches
    into the keyword. *)
Theorem buildInherits_empty_iff (type : Interface) :
  (buildInherits type = "" <->
   inherits type = None
   \/ inherits type = Some []
   \/ exists a, inherits type = Some [a]
                /\ Js.get (inheritsFromUnresolved type) "ResponseBase" <> None)
  /\ (buildInherits type <> "" ->
      exists rest, buildInherits type = " extends " ++ rest).
Proof.
  destruct (inherits type) as [[|a rest]|] eqn:Hi.
  - unfold buildInherits. rewrite Hi. simpl. split; [tauto|congruence].
  - destruct ((List.length (a :: rest) =? 1)%nat
              && Js.truthy_property
                   (Js.get (inheritsFromUnresolved type) "ResponseBase"))
      eqn:Hcond.
    + assert (buildInherits type = "") as E
        by (unfold buildInherits; rewrite Hi, Hcond; reflexivity).
      split; [|congruence]. split; [intros _|intros _; exact E].
      right. right. apply andb_true_iff in Hcond as [Hlen Hset].
      destruct rest; [|discriminate]. exists a. split; [reflexivity|].
      destruct (Js.get _ _); [discriminate | discriminate].
    + rewrite (buildInherits_rendered type (a :: rest) Hi
                 ltac:(discriminate) Hcond).
      unfold extendsClause. split.
      * split; [discriminate|].
        intros [H|[H|[b [Hb Hset]]]]; try discriminate.
        injection Hb as -> ->. simpl in Hcond.
        destruct (Js.get _ _); [discriminate | congruence].
      * intros _. eexists. reflexivity.
  - unfold buildInherits. rewrite Hi. split; [tauto|congruence].
Qed.

Lemma buildInherits_empty_iff_witness :
  buildInherits (mkInterface "Hit" None (Some []) [] []) = ""
  /\ exists rest,
       buildInherits (mkInterface "Hit" None (Some [TypeRef "A" None]) [] [])
       = " extends " ++ rest.
Proof.
  split.
  - apply (proj1 (buildInherits_empty_iff
                    (mkInterface "Hit" None (Some []) [] []))).
    right. left. reflexivity.
  - apply (proj2 (buildInherits_empty_iff
                    (mkInterface "Hit" None (Some [TypeRef "A" None]) [] []))).
    discriminate.
Defined.

Section JoinFacts.

Lemma append_empty (a b : string) : a ++ b = "" -> a = "" /\ b = "".
Proof. destruct a; simpl; [tauto | discriminate]. Qed.

Lemma append_inv_head (a b c : string) : a ++ b = a ++ c -> b = c.
Proof.
  induction a as [|x a IH]; simpl; intros H; [exact H|].
  injection H as H. auto.
Qed.

Lemma concat_cons (sep x : string) (l : list string) :
  l <> [] -> String.concat sep (x :: l) = x ++ sep ++ String.concat sep l.
Proof. destruct l; [congruence | reflexivity]. Qed.

Lemma concat_app (sep : string) (l1 l2 : list string) :
  l1 <> [] -> l2 <> [] ->
  String.concat sep (l1 ++ l2)%list
  = String.concat sep l1 ++ sep ++ String.concat sep l2.
Proof.
  intros H1 H2. induction l1 as [|x l1 IH]; [congruence|].
  destruct l1 as [|y l1].
  - simpl app. now rewrite concat_cons.
  - change ((x :: y :: l1) ++ l2)%list with (x :: ((y :: l1) ++ l2))%list.
    rewrite concat_cons by discriminate. rewrite IH by discriminate.
    rewrite (concat_cons sep x (y :: l1)) by discriminate.
    now rewrite !append_assoc.
Qed.

Lemma unwrapType_UnionOf (items : list InstanceOf) :
  unwrapType (UnionOf items) = String.concat " | " (map unwrapType items).
Proof. simpl. apply join_concat. Qed.

End JoinFacts.

(** X4.  The resolver does not parenthesize: an array of a union renders as
    the same text as the union whose last alternative is the array. *)
Theorem unwrapType_array_of_union
    (items : list InstanceOf) (last : InstanceOf) :
  unwrapType (ArrayOf (UnionOf (items ++ [last])))
  = unwrapType (UnionOf (items ++ [ArrayOf last])).
Proof.
  simpl. rewrite !join_concat, !map_app. simpl map.
  destruct items as [|x items]; [reflexivity|].
  rewrite !concat_app by (simpl; discriminate).
  simpl String.concat at 2 4. now rewrite !append_assoc.
Qed.

(** X5.  A union nested first in a union, if it has at least one item,
    renders as the union of all the items: the nesting leaves no trace. *)
Theorem unwrapType_union_nested
    (item : InstanceOf) (inner others : list InstanceOf) :
  unwrapType (UnionOf (UnionOf (item :: inner) :: others))
  = unwrapType (UnionOf ((item :: inner) ++ others)).
Proof.
  rewrite !unwrapType_UnionOf, map_cons, unwrapType_UnionOf.
  destruct others as [|o others].
  - rewrite app_nil_r. reflexivity.
  - rewrite map_app.
    rewrite (concat_app " | " (map unwrapType (item :: inner)))
      by (simpl; discriminate).
    rewrite concat_cons by (simpl; discriminate). reflexivity.
Qed.

(** X6.  A rendering is the empty string only in the degenerate cases
    [rendersEmpty] lists: a union without items, a reference with an empty
    name and no rendered generics, or a one-item union of such; arrays and
    dictionaries never render empty. *)
Theorem unwrapType_empty_iff (type : InstanceOf) :
  unwrapType type = "" <-> rendersEmpty type = true.
Proof.
  induction type as [o IH|k v IHk IHv|v IH|items IH|n cg IH|n|n cg IH]
    using InstanceOf_nested_ind.
  - simpl. split; [|discriminate].
    intros E. apply append_empty in E as [_ E]. discriminate.
  - simpl. split; discriminate.
  - simpl. split; discriminate.
  - simpl unwrapType. rewrite join_concat.
    destruct items as [|x [|y rest]].
    + simpl. tauto.
    + simpl. now inversion IH.
    + rewrite map_cons, concat_cons by (simpl; discriminate).
      simpl rendersEmpty. split; [|discriminate].
      intros E. apply append_empty in E as [_ E]. discriminate.
  - simpl. destruct (String.eqb n "DictionaryResponseBase");
      [split; discriminate|].
    destruct (1 <? List.length cg)%nat.
    + split; [|discriminate].
      intros E. apply append_empty in E as [_ E]. discriminate.
    + rewrite String.eqb_eq. tauto.
  - simpl. rewrite String.eqb_eq. tauto.
  - simpl. destruct cg as [|g cg]; simpl.
    + rewrite String.eqb_eq. tauto.
    + split; [|discriminate].
      intros E. apply append_empty in E as [_ E]. discriminate.
Qed.

Lemma unwrapType_empty_iff_witness :
  unwrapType (UnionOf [UnionOf []]) = ""
  /\ rendersEmpty (TypeRef "" (Some [])) = true.
Proof.
  split.
  - apply (proj2 (unwrapType_empty_iff (UnionOf [UnionOf []]))). reflexivity.
  - apply (proj1 (unwrapType_empty_iff (TypeRef "" (Some [])))). reflexivity.
Defined.

(** X7.  Without the toggle an enum is a block with one line per member, in
    member order, none skipped: the sanitized member name, [ = ], the string
    representation between double quotes ([true] and [false] included) and
    a comma, the last line too. *)
Theorem buildEnum_enumerated (env : Env) (type : Enum) :
  Js.truthy_env (ENUM_AS_UNION env) = false ->
  buildEnum env type
  = "  export enum " ++ enum_name type ++ " {" ++ nl
    ++ flat (map enumLine (members type)) ++ "  }"
  /\ List.length (map enumLine (members type)) = List.length (members type)
  /\ Forall2 (fun member line =>
                line = "    " ++ cleanPropertyName (member_name member)
                       ++ " = " ++ dq ++ stringRepresentation member ++ dq
                       ++ "," ++ nl)
             (members type) (map enumLine (members type)).
Proof.
  intros Hmode. split; [|split].
  - unfold buildEnum. rewrite Hmode.
    rewrite (fold_left_append enumLine). now rewrite !append_assoc.
  - apply length_map.
  - induction (members type) as [|m ms IH]; simpl; constructor;
      [reflexivity | exact IH].
Qed.

Lemma buildEnum_enumerated_witness :
  buildEnum (mkEnv (Some ""))
            (mkEnum "Flag" [mkMember "on" "true"; mkMember "a-b" "x"])
  = "  export enum Flag {" ++ nl
    ++ "    on = " ++ dq ++ "true" ++ dq ++ "," ++ nl
    ++ "    " ++ dq ++ "a-b" ++ dq ++ " = " ++ dq ++ "x" ++ dq ++ "," ++ nl
    ++ "  }".
Proof.
  exact (proj1 (buildEnum_enumerated (mkEnv (Some ""))
                  (mkEnum "Flag" [mkMember "on" "true"; mkMember "a-b" "x"])
                  eq_refl)).
Defined.

Section RequestFacts.

Lemma flat_app (l1 l2 : list string) :
  flat (l1 ++ l2)%list = flat l1 ++ flat l2.
Proof.
  induction l1 as [|x l1 IH]; simpl; [reflexivity|].
  now rewrite IH, append_assoc.
Qed.

Lemma memberLines_app (indent : string) (a b : list InterfaceProperty) :
  memberLines indent (a ++ b)
  = (memberLines indent a ++ memberLines indent b)%list.
Proof.
  unfold memberLines, definedProperties. now rewrite flat_map_app, map_app.
Qed.

Lemma memberLines_untyped (indent : string) (props : list InterfaceProperty) :
  Forall (fun p => property_type p = None) props ->
  memberLines indent props = [].
Proof.
  unfold memberLines, definedProperties.
  induction 1 as [|p props Hp _ IH]; simpl; [reflexivity|].
  rewrite Hp. exact IH.
Qed.

End RequestFacts.

(** X8.  A request interface without body is emitted exactly as the
    interface with the same name, generics and ancestors whose properties
    are the path properties followed by the query parameters, an absent
    group counting as empty; its own [properties] play no part. *)
Theorem buildRequestInterface_without_body (type : RequestInterface) :
  body type = None ->
  buildRequestInterface type
  = buildInterface
      (mkInterface (interface_name type) (openGenerics type) (inherits type)
         (inheritsFromUnresolved type)
         (orEmpty (path type) ++ orEmpty (queryParameters type))).
Proof.
  intros Hbody.
  rewrite buildRequestInterface_shape, buildInterface_shape, Hbody.
  simpl properties. rewrite memberLines_app, flat_app.
  unfold generateComment, buildGeneric, buildInherits, bodyMember. simpl.
  now rewrite !append_assoc.
Qed.

Lemma buildRequestInterface_without_body_witness :
  buildRequestInterface
    (mkRequest (mkInterface "CountRequest" None None []
                  [mkProperty "ignored" (Some (TypeRef "X" None)) false])
       (Some [mkProperty "index" (Some (TypeRef "Indices" None)) false])
       None None)
  = buildInterface
      (mkInterface "CountRequest" None None []
         [mkProperty "index" (Some (TypeRef "Indices" None)) false]).
Proof.
  exact (buildRequestInterface_without_body
           (mkRequest (mkInterface "CountRequest" None None []
                         [mkProperty "ignored" (Some (TypeRef "X" None)) false])
              (Some [mkProperty "index" (Some (TypeRef "Indices" None)) false])
              None None)
           eq_refl).
Defined.

(** X9.  A body given as a list of properties is emitted as a nested
    [body] object even when none of its properties has a type: the output
    is that of the empty property list, and differs from the output
    without a body. *)
Theorem buildRequestInterface_untyped_body
    (type : RequestInterface) (props : list InterfaceProperty) :
  body type = Some (BodyProperties props) ->
  Forall (fun p => property_type p = None) props ->
  buildRequestInterface type
  = buildRequestInterface (withBody type (Some (BodyProperties [])))
  /\ buildRequestInterface type
     <> buildRequestInterface (withBody type None).
Proof.
  intros Hbody Hnone.
  assert (buildRequestInterface type
          = buildRequestInterface (withBody type (Some (BodyProperties []))))
    as E.
  { rewrite !buildRequestInterface_shape, Hbody. unfold withBody, bodyMember.
    simpl. now rewrite (memberLines_untyped _ props Hnone). }
  split; [exact E|]. rewrite E. clear E.
  rewrite !buildRequestInterface_shape. unfold withBody.
  cbn [body path queryParameters request_base].
  intros E. repeat apply append_inv_head in E.
  vm_compute in E. discriminate E.
Qed.

Lemma buildRequestInterface_untyped_body_witness :
  buildRequestInterface
    (mkRequest (mkInterface "PingRequest" None None [] []) None None
       (Some (BodyProperties [mkProperty "later" None true])))
  = "  /**" ++ nl ++ "   * @description Stability: UNSTABLE" ++ nl
    ++ "   */" ++ nl ++ "  export interface PingRequest {" ++ nl
    ++ "    body?: {" ++ nl ++ "    }" ++ nl ++ "  }".
Proof.
  exact (proj1 (buildRequestInterface_untyped_body
                  (mkRequest (mkInterface "PingRequest" None None [] [])
                     None None
                     (Some (BodyProperties [mkProperty "later" None true])))
                  [mkProperty "later" None true] eq_refl
                  ltac:(constructor; [reflexivity | constructor]))).
Defined.

Section WalkFacts.

Lemma emitted_none_iff (env : Env) (type : TypeDeclaration) :
  emitted env type = None <-> isSkipped type = true.
Proof.
  unfold emitted, isSkipped.
  destruct (Js.array_includes skipInterface (declaration_name type));
    [simpl; tauto|].
  destruct type; simpl; split; (reflexivity || discriminate).
Qed.

Lemma isSkipped_iff (type : TypeDeclaration) :
  isSkipped type = true
  <-> In (declaration_name type) skipInterface
      \/ exists name, type = OtherDeclaration name.
Proof.
  unfold isSkipped. rewrite orb_true_iff, array_includes_In.
  split; (intros [H|H]; [now left | right]).
  - destruct type; try discriminate. eexists. reflexivity.
  - destruct H as [name ->]. reflexivity.
Qed.

Lemma declarations_kept (env : Env) (types : list TypeDeclaration) :
  declarations env (filter (fun t => negb (isSkipped t)) types)
  = declarations env types.
Proof.
  induction types as [|t types IH]; [reflexivity|]. simpl.
  destruct (isSkipped t) eqn:Hs; simpl.
  - apply (proj2 (emitted_none_iff env t)) in Hs. now rewrite Hs.
  - destruct (emitted env t); now rewrite IH.
Qed.

Lemma declarations_ext (env1 env2 : Env) (types : list TypeDeclaration) :
  Forall (fun t => emitted env1 t = emitted env2 t) types ->
  declarations env1 types = declarations env2 types.
Proof.
  induction 1 as [|t types Ht _ IH]; [reflexivity|].
  simpl. now rewrite Ht, IH.
Qed.

Lemma typeDefinitions_by_declarations
    (env1 env2 : Env) (a b : list TypeDeclaration) :
  declarations env1 a = declarations env2 b ->
  typeDefinitions env1 a = typeDefinitions env2 b.
Proof.
  intros E. unfold typeDefinitions. now rewrite !walk_declarations, E.
Qed.

Lemma declarations_in_order (env : Env) (types : list TypeDeclaration) :
  Forall2 (fun type text => emitted env type = Some text)
          (filter (fun t => negb (isSkipped t)) types)
          (declarations env types).
Proof.
  induction types as [|t types IH]; simpl; [constructor|].
  destruct (emitted env t) as [text|] eqn:He.
  - assert (isSkipped t = false) as ->.
    { apply not_true_is_false. rewrite <- (emitted_none_iff env).
      congruence. }
    simpl. constructor; assumption.
  - apply emitted_none_iff in He. rewrite He. exact IH.
Qed.

Lemma buildEnum_truthiness (env1 env2 : Env) (type : Enum) :
  Js.truthy_env (ENUM_AS_UNION env1) = Js.truthy_env (ENUM_AS_UNION env2) ->
  buildEnum env1 type = buildEnum env2 type.
Proof. intros E. unfold buildEnum. now rewrite E. Qed.

Lemma emitted_truthiness (env1 env2 : Env) (type : TypeDeclaration) :
  Js.truthy_env (ENUM_AS_UNION env1) = Js.truthy_env (ENUM_AS_UNION env2) ->
  emitted env1 type = emitted env2 type.
Proof.
  intros E. unfold emitted. destruct type; try reflexivity.
  now rewrite (buildEnum_truthiness env1 env2).
Qed.

End WalkFacts.

(** X10.  The walker leaves its buffer untouched for an entry exactly when
    the entry's name is in [skipInterface], whatever its variant, or the
    entry is of no variant the walker knows; every other entry makes the
    buffer grow. *)
Theorem walk_step_skips_iff
    (env : Env) (buffer : string) (type : TypeDeclaration) :
  walk_step env buffer type = buffer
  <-> In (declaration_name type) skipInterface
      \/ exists name, type = OtherDeclaration name.
Proof.
  rewrite <- isSkipped_iff, <- (emitted_none_iff env), walk_step_emitted.
  destruct (emitted env type) as [text|]; split; try reflexivity;
    try discriminate.
  intros E. apply (f_equal String.length) in E.
  rewrite !length_append in E. simpl in E. lia.
Qed.

Lemma walk_step_skips_iff_witness :
  walk_step (mkEnv None) "declare"
            (EnumDecl (mkEnum "ResponseBase" [mkMember "a" "a"]))
  = "declare".
Proof.
  apply (proj2 (walk_step_skips_iff (mkEnv None) "declare"
                  (EnumDecl (mkEnum "ResponseBase" [mkMember "a" "a"])))).
  left. simpl. tauto.
Defined.

(** X11.  The text written for a catalogue is the text written for the
    catalogue without its skipped entries: excluded and unknown entries,
    wherever they stand, leave no trace in the artifact. *)
Theorem typeDefinitions_skipped_removed
    (env : Env) (types : list TypeDeclaration) :
  typeDefinitions env types
  = typeDefinitions env (filter (fun t => negb (isSkipped t)) types).
Proof.
  apply typeDefinitions_by_declarations. symmetry. apply declarations_kept.
Qed.

(** X12.  The artifact lists one declaration for each entry that is not
    skipped, in catalogue order: when there is at least one, the text is the
    namespace around exactly these declarations, a blank line apart. *)
Theorem typeDefinitions_catalogue_order
    (env : Env) (types : list TypeDeclaration) :
  Forall2 (fun type text => emitted env type = Some text)
          (filter (fun t => negb (isSkipped t)) types)
          (declarations env types)
  /\ (declarations env types <> [] ->
      typeDefinitions env types = assembled (declarations env types)).
Proof.
  split.
  - apply declarations_in_order.
  - apply typeDefinitions_some.
Qed.

Lemma typeDefinitions_catalogue_order_witness :
  typeDefinitions (mkEnv None)
    [NumberAlias "long"; OtherDeclaration "Union"; StringAlias "Id"]
  = "declare namespace T {" ++ nl
    ++ "  export type long = number" ++ nl ++ nl
    ++ "  export type Id = string" ++ nl
    ++ "}" ++ nl ++ nl ++ "export default T".
Proof.
  apply (proj2 (typeDefinitions_catalogue_order (mkEnv None)
                  [NumberAlias "long"; OtherDeclaration "Union";
                   StringAlias "Id"])).
  discriminate.
Defined.

(** X13.  Only the truthiness of [ENUM_AS_UNION] matters: every non-empty
    value, [0] and [false] among them, gives the artifact of literal-union
    mode, and the empty value gives the artifact of the unset variable. *)
Theorem typeDefinitions_toggle_truthiness
    (v w : string) (types : list TypeDeclaration) :
  v <> "" -> w <> "" ->
  typeDefinitions (mkEnv (Some v)) types
  = typeDefinitions (mkEnv (Some w)) types
  /\ typeDefinitions (mkEnv (Some "")) types
     = typeDefinitions (mkEnv None) types.
Proof.
  intros Hv Hw. split; apply typeDefinitions_by_declarations;
    apply declarations_ext, Forall_forall; intros t _;
    apply emitted_truthiness; [|reflexivity].
  destruct v, w; simpl; congruence.
Qed.

Lemma typeDefinitions_toggle_truthiness_witness :
  typeDefinitions (mkEnv (Some "false"))
    [EnumDecl (mkEnum "Conflicts" [mkMember "abort" "abort"])]
  = typeDefinitions (mkEnv (Some "1"))
      [EnumDecl (mkEnum "Conflicts" [mkMember "abort" "abort"])].
Proof.
  apply (proj1 (typeDefinitions_toggle_truthiness "false" "1"
                  [EnumDecl (mkEnum "Conflicts" [mkMember "abort" "abort"])]
                  ltac:(discriminate) ltac:(discriminate))).
Defined.

(** X14.  For a catalogue in which every enum is skipped by name, and so
    for one without enums, the whole artifact is the same under any two
    values of [ENUM_AS_UNION]. *)
Theorem typeDefinitions_without_enums
    (env1 env2 : Env) (types : list TypeDeclaration) :
  Forall (fun t => isEnum t = true -> isSkipped t = true) types ->
  typeDefinitions env1 types = typeDefinitions env2 types.
Proof.
  intros Hall. apply typeDefinitions_by_declarations, declarations_ext.
  eapply Forall_impl; [|exact Hall]. intros t Ht. simpl in Ht.
  destruct (isEnum t) eqn:He.
  - specialize (Ht eq_refl).
    pose proof (proj2 (emitted_none_iff env1 t) Ht) as E1.
    pose proof (proj2 (emitted_none_iff env2 t) Ht) as E2.
    congruence.
  - unfold emitted. destruct t; try reflexivity. discriminate He.
Qed.

Lemma typeDefinitions_without_enums_witness :
  typeDefinitions (mkEnv (Some "1"))
    [StringAlias "Id"; EnumDecl (mkEnum "ResponseBase" [])]
  = typeDefinitions (mkEnv None)
      [StringAlias "Id"; EnumDecl (mkEnum "ResponseBase" [])].
Proof.
  apply (typeDefinitions_without_enums (mkEnv (Some "1")) (mkEnv None)
           [StringAlias "Id"; EnumDecl (mkEnum "ResponseBase" [])]).
  constructor; [discriminate|].
  constructor; [reflexivity | constructor].
Defined.

(** X15.  [buildGeneric] returns the empty string exactly when
    [openGenerics] is absent or empty; otherwise it returns the generic
    names, unchanged and in order, separated by commas between angle
    brackets. *)
Theorem buildGeneric_empty_iff (type : Interface) :
  (buildGeneric type = ""
   <-> openGenerics type = None \/ openGenerics type = Some [])
  /\ (forall g generics,
         openGenerics type = Some (g :: generics) ->
         buildGeneric type
         = "<" ++ String.concat ", " (g :: generics) ++ ">").
Proof.
  unfold buildGeneric. destruct (openGenerics type) as [[|g gs]|].
  - split; [simpl; tauto | discriminate].
  - split.
    + split; [discriminate | intros [H|H]; discriminate].
    + intros g' gs' E. injection E as <- <-.
      now rewrite join_concat.
  - split; [tauto | discriminate].
Qed.

Lemma buildGeneric_empty_iff_witness :
  buildGeneric (mkInterface "Hit" (Some []) None [] []) = ""
  /\ buildGeneric (mkInterface "Hit" (Some ["TDocument"; "TKey"]) None [] [])
     = "<TDocument, TKey>".
Proof.
  split.
  - apply (proj1 (buildGeneric_empty_iff
                    (mkInterface "Hit" (Some []) None [] []))).
    right. reflexivity.
  - exact (proj2 (buildGeneric_empty_iff
                    (mkInterface "Hit" (Some ["TDocument"; "TKey"]) None [] []))
             "TDocument" ["TKey"] eq_refl).
Defined.

(** X16.  A plain reference renders every closed generic it has, one
    included, and renders bare when the list is absent or empty; an
    [ImplementsReference] to the same name with exactly one closed generic
    loses it and renders like the bare reference. *)
Theorem unwrapType_single_generic
    (name : string) (generic : InstanceOf) (generics : list InstanceOf) :
  name <> "DictionaryResponseBase" ->
  unwrapType (TypeRef name (Some (generic :: generics)))
  = name ++ "<" ++ String.concat ", " (map unwrapType (generic :: generics))
    ++ ">"
  /\ unwrapType (TypeRef name (Some [])) = unwrapType (TypeRef name None)
  /\ unwrapType (ImplementsReference name [generic])
     = unwrapType (TypeRef name None)
  /\ unwrapType (ImplementsReference name [generic])
     <> unwrapType (TypeRef name (Some [generic])).
Proof.
  intros Hname. apply String.eqb_neq in Hname.
  split; [|split; [|split]].
  - simpl. now rewrite join_concat.
  - reflexivity.
  - simpl. now rewrite Hname.
  - simpl. rewrite Hname. intros E.
    rewrite <- (append_nil_r name) in E at 1.
    apply append_inv_head in E. discriminate E.
Qed.

Lemma unwrapType_single_generic_witness :
  unwrapType (ImplementsReference "Hit" [TypeRef "TDocument" None])
  = unwrapType (TypeRef "Hit" None).
Proof.
  apply (proj1 (proj2 (proj2 (unwrapType_single_generic "Hit"
                                (TypeRef "TDocument" None) []
                                ltac:(discriminate))))).
Defined.

(** ** The scenarios of the specification, evaluated *)

Example unwrapType_round_trip :
  unwrapType (ArrayOf (Dictionary (TypeRef "K" None) (TypeRef "V" None)))
  = "Record<K, V>[]".
Proof. reflexivity. Qed.

Example cleanPropertyName_samples :
  cleanPropertyName "a.b" = dq ++ "a.b" ++ dq
  /\ cleanPropertyName "a-b" = dq ++ "a-b" ++ dq
  /\ cleanPropertyName "1x" = dq ++ "1x" ++ dq
  /\ cleanPropertyName "abc" = "abc"
  /\ cleanPropertyName "_source" = "_source".
Proof. repeat split. Qed.

Example buildInterface_box :
  buildInterface
    (mkInterface "Box" (Some ["T"]) None []
       [mkProperty "items" (Some (ArrayOf (TypeRef "T" None))) false;
        mkProperty "hidden" None false])
  = "  export interface Box<T> {" ++ nl ++ "    items: T[]" ++ nl ++ "  }".
Proof. reflexivity. Qed.

Example buildEnum_block :
  buildEnum (mkEnv None)
    (mkEnum "Conflicts" [mkMember "abort" "abort"; mkMember "proceed" "proceed"])
  = "  export enum Conflicts {" ++ nl
    ++ "    abort = " ++ dq ++ "abort" ++ dq ++ "," ++ nl
    ++ "    proceed = " ++ dq ++ "proceed" ++ dq ++ "," ++ nl
    ++ "  }".
Proof. reflexivity. Qed.
